(** * yabl parser: typed AST model and recursive-descent parser

    Shallow embedding of [src/parser.h].  The header gives the AST classes,
    the enumerations, the parser's global state and the signatures (with
    their default arguments) of the parsing functions; the bodies of those
    functions (parser.cpp) and the token type (lexer.h) are not in the
    sources, and are modelled from the specification where noted. *)

From Stdlib Require Import String List ZArith Lia Bool.
Import ListNotations.
Open Scope string_scope.
Open Scope list_scope.

(** ** Enumerations of the header *)

Inductive Node_Types :=
| UnknownNode
| NumberExpressionNode
| VariableExpressionNode
| BinaryExpressionNode
| CallExpressionNode
| FunctionDeclarationNode
| VariableDeclarationNode
| ReturnNode
| TypeCastNode
| AssignmentNode
| IfNode
| ImportNode.

Scheme Equality for Node_Types.

Inductive Variable_Types :=
| type_null
| type_i64
| type_i32
| type_i16
| type_i8
| type_float
| type_double
| type_bool
| type_void.

Scheme Equality for Variable_Types.

(** ** Tokens *)

(** Modelled from the spec: the token categories of lexer.h, which is not
    in the sources.  [tok_number] is the kind of a numeric literal written
    without a type of its own (a bare literal such as [3]), the literal
    that contextual typing applies to; [tok_floating] and [tok_boolean] are
    the literal kinds that carry a type.  Comparison operators and the
    logical joiners of [if] conditions have kinds of their own; every
    other operator ([+], [-], [*], [/], [=]) is a [tok_op] told apart by
    its lexeme. *)
Inductive Token_Types :=
| tok_number
| tok_floating
| tok_boolean
| tok_identifier
| tok_string
| tok_fn
| tok_return
| tok_if
| tok_import
| tok_type
| tok_lparen
| tok_rparen
| tok_lbrace
| tok_rbrace
| tok_comma
| tok_semicolon
| tok_arrow
| tok_op
| tok_lt
| tok_gt
| tok_le
| tok_ge
| tok_eqeq
| tok_ne
| tok_and
| tok_or.

Scheme Equality for Token_Types.

(** Modelled from the spec: a token of lexer.h, with its category, its
    lexeme and its source position. *)
Record Token := mkToken {
  type : Token_Types;
  value : string;
  row : nat;
  col : nat
}.

(** ** AST classes of the header *)

Record Prototype_Node := mkPrototype_Node {
  proto_name : string;
  arg_types : list Variable_Types;
  arg_names : list string;
  return_type : Variable_Types
}.

(** [Number_Expression_Node] stores [strtod] of the literal's lexeme; the
    lexeme itself stands for that double here.  A [Node] has six members,
    each a [std::variant] over the six [unique_ptr] payload kinds
    ([Node_Slot]); a null [unique_ptr] is [None].  The raw pointers
    [return_value_ptr] and [end_bb] of [Function_Node] are addresses, 0
    being [nullptr]; [variables] is the [std::map] as an association
    list. *)
Inductive Expression_Node :=
| Number_Expression_Node (num_value : string) (variable_type : Variable_Types)
| Variable_Expression_Node (var_name : string)
| Binary_Expression_Node (op : string) (lhs rhs : Expression_Node)
| Call_Expression (call : Call_Expression_Node)
| Type_Cast_Node (cast_value : Expression_Node) (new_type : Variable_Types)
| Assignment_Node (assign_name : string) (assign_value : Expression_Node)
| If_Node (conditions : list Condition_Expression)
          (condition_seperators : list Token_Types) (then_ : list Node)
| Import_Node (path : string)
| String_Expression (str_value : string)
with Call_Expression_Node :=
| mkCall_Expression_Node (callee : string) (args : list Expression_Node)
with Condition_Expression :=
| mkCondition_Expression (cond_lhs : Expression_Node) (cond_op : Token_Types)
                         (cond_rhs : Expression_Node)
with Node :=
| mkNode (node_type : Node_Types)
         (expression_node variable_node function_node prototype_node
          return_node call_node : Node_Slot)
with Node_Slot :=
| slot_expression (p : option Expression_Node)
| slot_variable (p : option Variable_Node)
| slot_function (p : option Function_Node)
| slot_prototype (p : option Prototype_Node)
| slot_return (p : option Return_Node)
| slot_call (p : option Call_Expression_Node)
with Function_Node :=
| mkFunction_Node (proto : Prototype_Node) (body : list Node)
                  (variables : list (string * Z))
                  (fn_arg_types : list Variable_Types)
                  (return_value_ptr : Z) (end_bb : Z)
with Variable_Node :=
| mkVariable_Node (decl_name : string) (decl_type : Variable_Types)
                  (decl_value : Expression_Node)
with Return_Node :=
| mkReturn_Node (ret_value : Expression_Node).

(** A default-constructed [std::variant] holds its first alternative,
    value-initialised: a null [unique_ptr<Expression_Node>]. *)
Definition empty_slot : Node_Slot := slot_expression None.

(** The constructor of [Function_Node]: [proto], [body] and [arg_types]
    come from the initializer list, [variables] is default-constructed (an
    empty map), and the two raw pointers, absent from the initializer list
    and without a default member initializer, keep whatever the storage
    held: [storage_rv] and [storage_bb]. *)
Definition Function_Node_ctor (proto : Prototype_Node) (body : list Node)
    (types : list Variable_Types) (storage_rv storage_bb : Z) : Function_Node :=
  mkFunction_Node proto body [] types storage_rv storage_bb.

(** ** Parser state and error monad

    The header keeps the parser state in globals: the token vector [toks],
    the index [tok_pointer] and the current token [cur_tok] (which is
    [toks[tok_pointer]]).  A parsing function reads [toks] and threads
    [tok_pointer]; a failure carries a message and the token the cursor is
    on ([None] at end of input). *)

Record parse_error := mkParse_Error {
  err_msg : string;
  err_token : option Token
}.

Inductive result (A : Type) :=
| Ok (a : A) (tok_pointer : nat)
| Err (e : parse_error).
Arguments Ok {A} a tok_pointer.
Arguments Err {A} e.

Definition parser (A : Type) := list Token -> nat -> result A.

Definition ret {A} (a : A) : parser A := fun _ p => Ok a p.

Definition bind {A B} (m : parser A) (k : A -> parser B) : parser B :=
  fun toks p =>
    match m toks p with
    | Ok a p' => k a toks p'
    | Err e => Err e
    end.

Notation "x <- m ;; k" := (bind m (fun x => k))
  (at level 61, m at next level, right associativity).

(** The token under the cursor, [None] past the end of the vector. *)
Definition cur_tok : parser (option Token) :=
  fun toks p => Ok (nth_error toks p) p.

(** [get_next_token]: advance the cursor; no-op at end of input. *)
Definition get_next_token : parser unit :=
  fun toks p => Ok tt (if Nat.ltb p (List.length toks) then S p else p).

(** Modelled from the spec: [error]/[error_p] (bodies not in the sources)
    abort the parse with the message and the offending token. *)
Definition error {A} (str : string) : parser A :=
  fun toks p => Err (mkParse_Error str (nth_error toks p)).

(** The recursion bound of the model (the C++ recursion is unbounded). *)
Definition out_of_fuel {A} : parser A := error "parser recursion limit reached".

(** Modelled from the spec: the initial contents of [bin_op_precedence],
    seeded by code not in the sources, with the values of the spec. *)
Definition bin_op_precedence : list (string * Z) :=
  [("=", 2); ("<", 10); (">", 10); ("+", 20); ("-", 20); ("*", 40); ("/", 40)]%Z.

Fixpoint lookup_prec (op : string) (m : list (string * Z)) : option Z :=
  match m with
  | [] => None
  | (k, v) :: m' => if String.eqb k op then Some v else lookup_prec op m'
  end.

(** Modelled from the spec: [get_tok_precedence] looks the current
    lexeme up in the table; absent or non-positive gives -1. *)
Definition token_precedence (t : option Token) : Z :=
  match t with
  | None => (-1)%Z
  | Some t =>
      match lookup_prec (value t) bin_op_precedence with
      | Some v => if (0 <? v)%Z then v else (-1)%Z
      | None => (-1)%Z
      end
  end.

Definition get_tok_precedence : parser Z :=
  t <- cur_tok;;
  ret (token_precedence t).

Definition tok_is (k : Token_Types) (t : option Token) : bool :=
  match t with Some t => Token_Types_beq (type t) k | None => false end.

Definition tok_lexeme_is (s : string) (t : option Token) : bool :=
  match t with Some t => String.eqb (value t) s | None => false end.

(** Check the kind of the current token and consume it, or fail. *)
Definition expect (k : Token_Types) (msg : string) : parser unit :=
  t <- cur_tok;;
  if tok_is k t then get_next_token else error msg.

Definition expect_lexeme (s : string) (msg : string) : parser unit :=
  t <- cur_tok;;
  if tok_lexeme_is s t then get_next_token else error msg.

(** ** Type resolver (modelled from the spec) *)

Definition type_string_to_variable_type (str : string) : Variable_Types :=
  if String.eqb str "i64" then type_i64
  else if String.eqb str "i32" then type_i32
  else if String.eqb str "i16" then type_i16
  else if String.eqb str "i8" then type_i8
  else if String.eqb str "float" then type_float
  else if String.eqb str "double" then type_double
  else if String.eqb str "bool" then type_bool
  else if String.eqb str "void" then type_void
  else type_null.

(** A bare literal has no type of its own ([type_null]). *)
Definition token_type_to_variable_type (t : Token_Types) : Variable_Types :=
  match t with
  | tok_floating => type_double
  | tok_boolean => type_bool
  | _ => type_null
  end.

(** The type keyword under the cursor, [type_null] if there is none. *)
Definition cur_type_keyword (t : option Token) : Variable_Types :=
  match t with
  | Some t => if Token_Types_beq (type t) tok_type
              then type_string_to_variable_type (value t) else type_null
  | None => type_null
  end.

Definition comparison_op (t : option Token) : option Token_Types :=
  match t with
  | Some t =>
      match type t with
      | tok_lt | tok_gt | tok_le | tok_ge | tok_eqeq | tok_ne => Some (type t)
      | _ => None
      end
  | None => None
  end.

Definition condition_joiner (t : option Token) : option Token_Types :=
  match t with
  | Some t =>
      match type t with
      | tok_and | tok_or => Some (type t)
      | _ => None
      end
  | None => None
  end.

(** ** Node construction

    Modelled from the spec: the parser stores each payload in the member
    named after it and sets the tag; the other five members stay
    default-constructed.  [Node_Types] has no enumerator for a string
    expression (nor for a prototype); what the source stores in [type]
    for a string statement is not visible, and the model puts the
    enumerator 0, [UnknownNode], there. *)

Definition expression_tag (e : Expression_Node) : Node_Types :=
  match e with
  | Number_Expression_Node _ _ => NumberExpressionNode
  | Variable_Expression_Node _ => VariableExpressionNode
  | Binary_Expression_Node _ _ _ => BinaryExpressionNode
  | Call_Expression _ => CallExpressionNode
  | Type_Cast_Node _ _ => TypeCastNode
  | Assignment_Node _ _ => AssignmentNode
  | If_Node _ _ _ => IfNode
  | Import_Node _ => ImportNode
  | String_Expression _ => UnknownNode
  end.

Definition node_of_expression (e : Expression_Node) : Node :=
  mkNode (expression_tag e) (slot_expression (Some e)) empty_slot empty_slot
         empty_slot empty_slot empty_slot.

Definition node_of_variable (v : Variable_Node) : Node :=
  mkNode VariableDeclarationNode empty_slot (slot_variable (Some v)) empty_slot
         empty_slot empty_slot empty_slot.

Definition node_of_function (f : Function_Node) : Node :=
  mkNode FunctionDeclarationNode empty_slot empty_slot (slot_function (Some f))
         empty_slot empty_slot empty_slot.

Definition node_of_return (r : Return_Node) : Node :=
  mkNode ReturnNode empty_slot empty_slot empty_slot empty_slot
         (slot_return (Some r)) empty_slot.

(** ** Leaf parsers (modelled from the spec) *)

(** [parse_number_expression(type)]: consume the literal under the cursor
    and give it [type].  The header passes a single type, so its caller
    [parse_primary] hands over the literal's own type, or the context type
    when the literal is bare. *)
Definition parse_number_expression (ty : Variable_Types) : parser Expression_Node :=
  t <- cur_tok;;
  match t with
  | Some t => _ <- get_next_token;; ret (Number_Expression_Node (value t) ty)
  | None => error "expected a number"
  end.

Definition parse_string_expression : parser Expression_Node :=
  t <- cur_tok;;
  match t with
  | Some t => _ <- get_next_token;; ret (String_Expression (value t))
  | None => error "expected a string"
  end.

Definition parse_import : parser Expression_Node :=
  _ <- get_next_token;;
  t <- cur_tok;;
  match t with
  | Some t =>
      if Token_Types_beq (type t) tok_string
      then _ <- get_next_token;; ret (Import_Node (value t))
      else error "expected a path after import"
  | None => error "expected a path after import"
  end.

(** The parameter list of a prototype: [type ident (, type ident)*],
    collecting the types and the names in order. *)
Fixpoint parse_prototype_args (n : nat) (types : list Variable_Types)
    (names : list string) : parser (list Variable_Types * list string) :=
  match n with
  | O => out_of_fuel
  | S n =>
      t <- cur_tok;;
      let ty := cur_type_keyword t in
      if Variable_Types_beq ty type_null then error "expected a parameter type"
      else
        _ <- get_next_token;;
        i <- cur_tok;;
        match i with
        | Some i =>
            if Token_Types_beq (type i) tok_identifier then
              _ <- get_next_token;;
              c <- cur_tok;;
              if tok_is tok_comma c then
                _ <- get_next_token;;
                parse_prototype_args n (types ++ [ty]) (names ++ [value i])
              else ret (types ++ [ty], names ++ [value i])
            else error "expected a parameter name"
        | None => error "expected a parameter name"
        end
  end.

(** [parse_prototype]: [name ( params ) -> type]. *)
Definition parse_prototype (n : nat) : parser Prototype_Node :=
  t <- cur_tok;;
  match t with
  | Some t =>
      if Token_Types_beq (type t) tok_identifier then
        _ <- get_next_token;;
        _ <- expect tok_lparen "expected '(' in prototype";;
        c <- cur_tok;;
        args <- (if tok_is tok_rparen c then ret ([], [])
                 else parse_prototype_args n [] []);;
        _ <- expect tok_rparen "expected ')' in prototype";;
        _ <- expect tok_arrow "expected '->' in prototype";;
        r <- cur_tok;;
        let rty := cur_type_keyword r in
        if Variable_Types_beq rty type_null then error "expected a return type"
        else
          _ <- get_next_token;;
          ret (mkPrototype_Node (value t) (fst args) (snd args) rty)
      else error "expected a function name"
  | None => error "expected a function name"
  end.

(** ** Expression and statement parsers (modelled from the spec)

    The bodies are those of the spec's sections 4.3 to 4.5; every function
    takes a recursion bound [n].  The C++ signatures fix which context
    type reaches which call: [parse_paren_expression],
    [parse_identifier_expression] and [parse_typecast_expression] take no
    type, so their inner expressions are parsed with [parse_expression]'s
    own default context [type_i32]; so are the operands of [if]
    conditions.  [parse_return_statement()] takes no parameter either, so
    its value is parsed the same way.  [storage_rv] and [storage_bb] are
    what the storage of a freshly allocated [Function_Node] holds. *)
Section Parser.

Variables storage_rv storage_bb : Z.

Fixpoint parse_primary (n : nat) (ty : Variable_Types) {struct n} : parser Expression_Node :=
  match n with
  | O => out_of_fuel
  | S n =>
      t <- cur_tok;;
      match t with
      | None => error "unknown token when expecting an expression"
      | Some t =>
          match type t with
          | tok_number | tok_floating | tok_boolean =>
              let lit := token_type_to_variable_type (type t) in
              parse_number_expression
                (if Variable_Types_beq lit type_null then ty else lit)
          | tok_identifier => parse_identifier_expression n
          | tok_lparen => parse_paren_expression n
          | tok_type => parse_typecast_expression n
          | tok_if => parse_if n
          | tok_import => parse_import
          | tok_string => parse_string_expression
          | _ => error "unknown token when expecting an expression"
          end
      end
  end

with parse_identifier_expression (n : nat) {struct n} : parser Expression_Node :=
  match n with
  | O => out_of_fuel
  | S n =>
      t <- cur_tok;;
      let name := match t with Some t => value t | None => "" end in
      _ <- get_next_token;;
      c <- cur_tok;;
      if tok_is tok_lparen c then
        _ <- get_next_token;;
        c' <- cur_tok;;
        if tok_is tok_rparen c' then
          _ <- get_next_token;;
          ret (Call_Expression (mkCall_Expression_Node name []))
        else
          args <- parse_call_args n [];;
          ret (Call_Expression (mkCall_Expression_Node name args))
      else if tok_lexeme_is "=" c then
        _ <- get_next_token;;
        rhs <- parse_expression n false type_i32;;
        ret (Assignment_Node name rhs)
      else ret (Variable_Expression_Node name)
  end

with parse_call_args (n : nat) (args : list Expression_Node) {struct n}
    : parser (list Expression_Node) :=
  match n with
  | O => out_of_fuel
  | S n =>
      a <- parse_expression n false type_i32;;
      c <- cur_tok;;
      if tok_is tok_comma c then
        _ <- get_next_token;;
        parse_call_args n (args ++ [a])
      else
        _ <- expect tok_rparen "expected ')' or ',' in argument list";;
        ret (args ++ [a])
  end

with parse_paren_expression (n : nat) {struct n} : parser Expression_Node :=
  match n with
  | O => out_of_fuel
  | S n =>
      _ <- get_next_token;;
      e <- parse_expression n false type_i32;;
      _ <- expect tok_rparen "expected ')'";;
      ret e
  end

with parse_typecast_expression (n : nat) {struct n} : parser Expression_Node :=
  match n with
  | O => out_of_fuel
  | S n =>
      t <- cur_tok;;
      let ty := cur_type_keyword t in
      if Variable_Types_beq ty type_null then error "unknown type"
      else
        _ <- get_next_token;;
        _ <- expect tok_lparen "expected '(' after type in typecast";;
        e <- parse_expression n false type_i32;;
        _ <- expect tok_rparen "expected ')' after typecast";;
        ret (Type_Cast_Node e ty)
  end

with parse_if (n : nat) {struct n} : parser Expression_Node :=
  match n with
  | O => out_of_fuel
  | S n =>
      _ <- get_next_token;;
      _ <- expect tok_lparen "expected '(' after if";;
      c <- parse_condition n;;
      cs <- parse_if_conditions n [c] [];;
      _ <- expect tok_rparen "expected ')' after if conditions";;
      _ <- expect tok_lbrace "expected '{' after if conditions";;
      then_ <- parse_fn_body n [];;
      ret (If_Node (fst cs) (snd cs) then_)
  end

with parse_if_conditions (n : nat) (conds : list Condition_Expression)
    (seps : list Token_Types) {struct n}
    : parser (list Condition_Expression * list Token_Types) :=
  match n with
  | O => out_of_fuel
  | S n =>
      c <- cur_tok;;
      match condition_joiner c with
      | Some j =>
          _ <- get_next_token;;
          cnd <- parse_condition n;;
          parse_if_conditions n (conds ++ [cnd]) (seps ++ [j])
      | None => ret (conds, seps)
      end
  end

with parse_condition (n : nat) {struct n} : parser Condition_Expression :=
  match n with
  | O => out_of_fuel
  | S n =>
      l <- parse_primary n type_i32;;
      c <- cur_tok;;
      match comparison_op c with
      | Some o =>
          _ <- get_next_token;;
          r <- parse_primary n type_i32;;
          ret (mkCondition_Expression l o r)
      | None => error "expected a comparison operator in if condition"
      end
  end

with parse_bin_op_rhs (n : nat) (expr_prec : Z) (lhs : Expression_Node)
    (ty : Variable_Types) {struct n} : parser Expression_Node :=
  match n with
  | O => out_of_fuel
  | S n =>
      tok_prec <- get_tok_precedence;;
      if (tok_prec <? expr_prec)%Z then ret lhs
      else
        t <- cur_tok;;
        let bin_op := match t with Some t => value t | None => "" end in
        _ <- get_next_token;;
        rhs <- parse_primary n ty;;
        next_prec <- get_tok_precedence;;
        rhs <- (if (tok_prec <? next_prec)%Z
                then parse_bin_op_rhs n (tok_prec + 1) rhs ty
                else ret rhs);;
        parse_bin_op_rhs n expr_prec (Binary_Expression_Node bin_op lhs rhs) ty
  end

with parse_expression (n : nat) (needs_semicolon : bool) (ty : Variable_Types) {struct n}
    : parser Expression_Node :=
  match n with
  | O => out_of_fuel
  | S n =>
      lhs <- parse_primary n ty;;
      e <- parse_bin_op_rhs n 0 lhs ty;;
      _ <- (if needs_semicolon then expect tok_semicolon "expected ';'"
            else ret tt);;
      ret e
  end

(** [parse_fn_body]: nodes up to the closing brace, which it consumes;
    [body] holds the nodes parsed so far. *)
with parse_fn_body (n : nat) (body : list Node) {struct n} : parser (list Node) :=
  match n with
  | O => out_of_fuel
  | S n =>
      c <- cur_tok;;
      match c with
      | None => error "expected '}'"
      | Some t =>
          if Token_Types_beq (type t) tok_rbrace then
            _ <- get_next_token;; ret body
          else
            node <- parse_token n;;
            parse_fn_body n (body ++ [node])
      end
  end

with parse_fn_declaration (n : nat) {struct n} : parser Function_Node :=
  match n with
  | O => out_of_fuel
  | S n =>
      _ <- get_next_token;;
      proto <- parse_prototype n;;
      _ <- expect tok_lbrace "expected '{' in function declaration";;
      body <- parse_fn_body n [];;
      ret (Function_Node_ctor proto body (arg_types proto) storage_rv storage_bb)
  end

with parse_variable_declaration (n : nat) {struct n} : parser Variable_Node :=
  match n with
  | O => out_of_fuel
  | S n =>
      t <- cur_tok;;
      let ty := cur_type_keyword t in
      if Variable_Types_beq ty type_null then error "unknown type"
      else
        _ <- get_next_token;;
        i <- cur_tok;;
        match i with
        | Some i =>
            if Token_Types_beq (type i) tok_identifier then
              _ <- get_next_token;;
              _ <- expect_lexeme "=" "expected '=' in variable declaration";;
              e <- parse_expression n true ty;;
              ret (mkVariable_Node (value i) ty e)
            else error "expected a variable name"
        | None => error "expected a variable name"
        end
  end

with parse_return_statement (n : nat) {struct n} : parser Return_Node :=
  match n with
  | O => out_of_fuel
  | S n =>
      _ <- get_next_token;;
      e <- parse_expression n true type_i32;;
      ret (mkReturn_Node e)
  end

(** The top-level and body dispatch on the leading token. *)
with parse_token (n : nat) {struct n} : parser Node :=
  match n with
  | O => out_of_fuel
  | S n =>
      c <- cur_tok;;
      match option_map type c with
      | Some tok_fn =>
          f <- parse_fn_declaration n;; ret (node_of_function f)
      | Some tok_type =>
          v <- parse_variable_declaration n;; ret (node_of_variable v)
      | Some tok_return =>
          r <- parse_return_statement n;; ret (node_of_return r)
      | Some tok_if =>
          e <- parse_if n;; ret (node_of_expression e)
      | Some tok_import =>
          e <- parse_import;;
          _ <- expect tok_semicolon "expected ';' after import";;
          ret (node_of_expression e)
      | _ =>
          e <- parse_expression n true type_i32;; ret (node_of_expression e)
      end
  end.

(** [parse_tokens]: dispatch until end of input, collecting the nodes. *)
Fixpoint parse_tokens_loop (n : nat) (nodes : list Node) {struct n} : parser (list Node) :=
  match n with
  | O => out_of_fuel
  | S n =>
      c <- cur_tok;;
      match c with
      | None => ret nodes
      | Some _ => node <- parse_token n;; parse_tokens_loop n (nodes ++ [node])
      end
  end.

Definition parse_fuel (tokens : list Token) : nat := 8 * (List.length tokens + 1).

Definition parse_tokens (tokens : list Token) : result (list Node) :=
  parse_tokens_loop (parse_fuel tokens) [] tokens 0.

(** C++ default arguments of the header (lines 272-274): an argument left
    out of a call is [None] and takes the declared default. *)
Definition call_parse_primary (n : nat) (ty : option Variable_Types)
    : parser Expression_Node :=
  parse_primary n (match ty with Some t => t | None => type_null end).

Definition call_parse_bin_op_rhs (n : nat) (expr_prec : Z) (lhs : Expression_Node)
    (ty : option Variable_Types) : parser Expression_Node :=
  parse_bin_op_rhs n expr_prec lhs (match ty with Some t => t | None => type_null end).

Definition call_parse_expression (n : nat) (needs_semicolon : option bool)
    (ty : option Variable_Types) : parser Expression_Node :=
  parse_expression n (match needs_semicolon with Some b => b | None => true end)
    (match ty with Some t => t | None => type_i32 end).

End Parser.

(** Members of a [Function_Node]. *)
Definition fn_variables (f : Function_Node) : list (string * Z) :=
  match f with mkFunction_Node _ _ v _ _ _ => v end.

Definition fn_return_value_ptr (f : Function_Node) : Z :=
  match f with mkFunction_Node _ _ _ _ rv _ => rv end.

Definition fn_end_bb (f : Function_Node) : Z :=
  match f with mkFunction_Node _ _ _ _ _ bb => bb end.



(** ** Token streams for examples: one line, one column per token. *)

Fixpoint tokens_from (c : nat) (l : list (Token_Types * string)) : list Token :=
  match l with
  | [] => []
  | (k, v) :: l' => mkToken k v 1 c :: tokens_from (S c) l'
  end.

Definition lex (l : list (Token_Types * string)) : list Token := tokens_from 1 l.

Definition example_expr : list Token :=
  lex [(tok_number, "1"); (tok_op, "+"); (tok_number, "2"); (tok_op, "*");
       (tok_number, "3"); (tok_semicolon, ";")].

Definition example_fn : list Token :=
  lex [(tok_fn, "fn"); (tok_identifier, "add"); (tok_lparen, "(");
       (tok_type, "i32"); (tok_identifier, "a"); (tok_comma, ",");
       (tok_type, "i32"); (tok_identifier, "b"); (tok_rparen, ")");
       (tok_arrow, "->"); (tok_type, "i32"); (tok_lbrace, "{");
       (tok_return, "return"); (tok_identifier, "a"); (tok_op, "+");
       (tok_identifier, "b"); (tok_semicolon, ";"); (tok_rbrace, "}")].

Definition example_if : list Token :=
  lex [(tok_if, "if"); (tok_lparen, "("); (tok_identifier, "a"); (tok_lt, "<");
       (tok_identifier, "b"); (tok_and, "&&"); (tok_identifier, "b");
       (tok_lt, "<"); (tok_identifier, "c"); (tok_rparen, ")");
       (tok_lbrace, "{"); (tok_identifier, "x"); (tok_op, "=");
       (tok_number, "1"); (tok_semicolon, ";"); (tok_rbrace, "}")].

Definition example_decl : list Token :=
  lex [(tok_type, "i64"); (tok_identifier, "x"); (tok_op, "=");
       (tok_number, "3"); (tok_semicolon, ";")].






Definition example_three : list Token :=
  lex [(tok_number, "3"); (tok_semicolon, ";")].

(** ** Cursor lemmas *)

Lemma bind_Ok {A B} (m : parser A) (k : A -> parser B) toks p a p' :
  m toks p = Ok a p' -> bind m k toks p = k a toks p'.
Proof. unfold bind; intros ->; reflexivity. Qed.

Lemma nth_error_lt {X} (l : list X) i x : nth_error l i = Some x -> i < List.length l.
Proof. intros H; apply nth_error_Some; congruence. Qed.

Lemma get_next_token_at toks p t :
  nth_error toks p = Some t -> get_next_token toks p = Ok tt (S p).
Proof.
  intros H; unfold get_next_token.
  apply nth_error_lt in H; apply Nat.ltb_lt in H; rewrite H; reflexivity.
Qed.

Section Climbing.
Variables storage_rv storage_bb : Z.
Local Arguments token_precedence : simpl never.

Lemma parse_bin_op_rhs_stop n e lhs ty toks p :
  (token_precedence (nth_error toks p) < e)%Z ->
  parse_bin_op_rhs storage_rv storage_bb (S n) e lhs ty toks p = Ok lhs p.
Proof.
  intros H; simpl.
  unfold bind at 1; unfold get_tok_precedence, cur_tok, bind at 1, ret.
  apply Z.ltb_lt in H; rewrite H; reflexivity.
Qed.

(** One round of the climbing loop: the operator under the cursor binds
    at least as tightly as [e], the primary after it is [rhs]. *)
Lemma parse_bin_op_rhs_step n e lhs ty toks p q t rhs :
  nth_error toks p = Some t ->
  (e <= token_precedence (Some t))%Z ->
  parse_primary storage_rv storage_bb n ty toks (S p) = Ok rhs q ->
  parse_bin_op_rhs storage_rv storage_bb (S n) e lhs ty toks p =
  if (token_precedence (Some t) <? token_precedence (nth_error toks q))%Z then
    match parse_bin_op_rhs storage_rv storage_bb n (token_precedence (Some t) + 1)
            rhs ty toks q with
    | Ok rhs' q' =>
        parse_bin_op_rhs storage_rv storage_bb n e
          (Binary_Expression_Node (value t) lhs rhs') ty toks q'
    | Err err => Err err
    end
  else parse_bin_op_rhs storage_rv storage_bb n e
         (Binary_Expression_Node (value t) lhs rhs) ty toks q.
Proof.
  intros Ht He Hrhs; simpl.
  unfold bind at 1; unfold get_tok_precedence, cur_tok, bind at 1, ret.
  rewrite Ht.
  destruct (Z.ltb_spec (token_precedence (Some t)) e); [lia|].
  unfold bind at 1; rewrite Ht.
  unfold bind at 1; rewrite (get_next_token_at _ _ _ Ht).
  unfold bind at 1; rewrite Hrhs.
  unfold bind at 1; unfold bind at 1.
  destruct (_ <? _)%Z; reflexivity.
Qed.

(** C1.  Precedence climbing on [a op1 b op2 c]: when the two operators
    have positive precedence, [b] and [c] are primaries and no binary
    operator follows [c], [parse_bin_op_rhs] (called with minimum
    precedence 0, as [parse_expression] calls it, and lhs [a]) builds
    [Binary(op1, a, Binary(op2, b, c))] if [prec(op1) < prec(op2)] and
    [Binary(op2, Binary(op1, a, b), c)] otherwise, so operators of equal
    precedence associate to the left. *)
Theorem parse_bin_op_rhs_two_operators n k ty toks p q r a b c t1 t2 :
  nth_error toks p = Some t1 ->
  (0 < token_precedence (Some t1))%Z ->
  (forall m, k <= m -> parse_primary storage_rv storage_bb m ty toks (S p) = Ok b q) ->
  nth_error toks q = Some t2 ->
  (0 < token_precedence (Some t2))%Z ->
  (forall m, k <= m -> parse_primary storage_rv storage_bb m ty toks (S q) = Ok c r) ->
  (token_precedence (nth_error toks r) < 0)%Z ->
  k + 3 <= n ->
  parse_bin_op_rhs storage_rv storage_bb n 0 a ty toks p =
  Ok (if (token_precedence (Some t1) <? token_precedence (Some t2))%Z
      then Binary_Expression_Node (value t1) a
             (Binary_Expression_Node (value t2) b c)
      else Binary_Expression_Node (value t2)
             (Binary_Expression_Node (value t1) a b) c) r.
Proof.
  intros Ht1 Hp1 Hb Ht2 Hp2 Hc Hr Hn.

  destruct n as [|n]; [lia|].
  rewrite (parse_bin_op_rhs_step n 0 a ty toks p q t1 b Ht1 ltac:(lia)
             (Hb n ltac:(lia))).
  rewrite Ht2.
  destruct (Z.ltb_spec (token_precedence (Some t1)) (token_precedence (Some t2)))
    as [Hlt|Hge].
  - destruct n as [|n]; [lia|].
    rewrite (parse_bin_op_rhs_step n (token_precedence (Some t1) + 1) b ty toks q r t2 c Ht2 ltac:(lia)
               (Hc n ltac:(lia))).
    destruct (Z.ltb_spec (token_precedence (Some t2))
                (token_precedence (nth_error toks r))); [lia|].
    destruct n as [|n]; [lia|].
    rewrite (parse_bin_op_rhs_stop n (token_precedence (Some t1) + 1) _ ty toks r ltac:(lia)).
    apply parse_bin_op_rhs_stop; lia.
  - destruct n as [|n]; [lia|].
    rewrite (parse_bin_op_rhs_step n 0 _ ty toks q r t2 c Ht2 ltac:(lia)
               (Hc n ltac:(lia))).
    destruct (Z.ltb_spec (token_precedence (Some t2))
                (token_precedence (nth_error toks r))); [lia|].
    destruct n as [|n]; [lia|].
    apply parse_bin_op_rhs_stop; lia.
Qed.

End Climbing.

Section Contextual_Typing.
Variables storage_rv storage_bb : Z.
Local Arguments nth_error : simpl never.
Local Arguments bind {A B} m k toks p /.
Local Arguments ret {A} a _ p /.
Local Arguments cur_tok toks p /.
Local Arguments get_next_token toks p /.
Local Arguments error {A} str toks p /.
Local Arguments expect k msg toks p /.
Local Arguments expect_lexeme s msg toks p /.
Local Arguments get_tok_precedence toks p /.
Local Arguments parse_number_expression ty toks p /.

(** C2.  Contextual typing: on [T x = N;] with [T] a type keyword and [N]
    a bare numeric literal, [parse_variable_declaration] parses the
    initializer with [T] as context type, so the [Number] node has type
    [T] (not [parse_expression]'s default [type_i32]); the cursor ends
    after the semicolon. *)
Theorem parse_variable_declaration_context_type n toks p T x N r1 c1 r2 c2 r3 c3 r4 c4 r5 c5 :
  nth_error toks p = Some (mkToken tok_type T r1 c1) ->
  nth_error toks (S p) = Some (mkToken tok_identifier x r2 c2) ->
  nth_error toks (S (S p)) = Some (mkToken tok_op "=" r3 c3) ->
  nth_error toks (S (S (S p))) = Some (mkToken tok_number N r4 c4) ->
  nth_error toks (S (S (S (S p)))) = Some (mkToken tok_semicolon ";" r5 c5) ->
  type_string_to_variable_type T <> type_null ->
  3 <= n ->
  parse_variable_declaration storage_rv storage_bb n toks p =
  Ok (mkVariable_Node x (type_string_to_variable_type T)
        (Number_Expression_Node N (type_string_to_variable_type T)))
     (S (S (S (S (S p))))).
Proof.
  intros H0 H1 H2 H3 H4 HT Hn.
  remember (type_string_to_variable_type T) as Tv eqn:HTv.
  assert (HTv' : Variable_Types_beq Tv type_null = false)
    by (destruct Tv; simpl; congruence).
  pose proof (nth_error_lt _ _ _ H0) as L0; apply Nat.ltb_lt in L0.
  pose proof (nth_error_lt _ _ _ H1) as L1; apply Nat.ltb_lt in L1.
  pose proof (nth_error_lt _ _ _ H2) as L2; apply Nat.ltb_lt in L2.
  pose proof (nth_error_lt _ _ _ H3) as L3; apply Nat.ltb_lt in L3.
  pose proof (nth_error_lt _ _ _ H4) as L4; apply Nat.ltb_lt in L4.
  do 3 (destruct n as [|n]; [lia|]).
  repeat progress (simpl; rewrite ?H0, ?H1, ?H2, ?H3, ?H4, ?L0, ?L1, ?L2, ?L3, ?L4, ?HT, <- ?HTv, ?HTv').
  reflexivity.
Qed.
End Contextual_Typing.

(** ** Inverting a successful run *)

Lemma bind_inv {A B} (m : parser A) (k : A -> parser B) toks p b p'' :
  bind m k toks p = Ok b p'' ->
  exists a p', m toks p = Ok a p' /\ k a toks p' = Ok b p''.
Proof.
  unfold bind; destruct (m toks p) as [a p'|e] eqn:Hm; [|discriminate].
  intros H; exists a, p'; auto.
Qed.

Ltac inv_ok :=
  repeat match goal with
  | H : bind _ _ _ _ = Ok _ _ |- _ =>
      apply bind_inv in H; destruct H as (? & ? & ? & H)
  | H : ret _ _ _ = Ok _ _ |- _ => unfold ret in H; injection H; clear H; intros; subst
  | H : cur_tok _ _ = Ok _ _ |- _ => unfold cur_tok in H; injection H; clear H; intros; subst
  | H : get_next_token _ _ = Ok _ _ |- _ =>
      unfold get_next_token in H; injection H; clear H; intros; subst
  | H : error _ _ _ = Ok _ _ |- _ => discriminate H
  | H : out_of_fuel _ _ = Ok _ _ |- _ => discriminate H
  | H : expect _ _ _ _ = Ok _ _ |- _ => unfold expect in H
  | H : expect_lexeme _ _ _ _ = Ok _ _ |- _ => unfold expect_lexeme in H
  | H : (if ?b then _ else _) _ _ = Ok _ _ |- _ => destruct b
  | H : (match ?x with _ => _ end) _ _ = Ok _ _ |- _ => destruct x eqn:?
  end.

Section Shapes.
Variables storage_rv storage_bb : Z.

Lemma parse_prototype_args_parallel n types names toks p tys nms p' :
  parse_prototype_args n types names toks p = Ok (tys, nms) p' ->
  List.length types = List.length names ->
  List.length tys = List.length nms.
Proof.
  revert types names p.
  induction n as [|n IH]; intros types names p H Hlen; simpl in H; inv_ok.
  - eapply IH; [eassumption|]. rewrite !length_app; simpl; lia.
  - rewrite !length_app; simpl; lia.
Qed.

(** C3.  Every [Prototype_Node] built by [parse_prototype] has as many
    argument names as argument types. *)
Theorem parse_prototype_arg_lengths n toks p proto p' :
  parse_prototype n toks p = Ok proto p' ->
  List.length (arg_names proto) = List.length (arg_types proto).
Proof.
  unfold parse_prototype; intros H; inv_ok; simpl.
  - reflexivity.
  - match goal with
    | H : parse_prototype_args _ _ _ _ _ = Ok ?r _ |- _ =>
        destruct r; symmetry; eapply parse_prototype_args_parallel;
        [exact H | reflexivity]
    end.
Qed.

Lemma parse_if_conditions_counts n conds seps toks p cs ss p' :
  parse_if_conditions storage_rv storage_bb n conds seps toks p = Ok (cs, ss) p' ->
  List.length conds = S (List.length seps) ->
  List.length cs = S (List.length ss).
Proof.
  revert conds seps p.
  induction n as [|n IH]; intros conds seps p H Hlen; simpl in H; inv_ok.
  - eapply IH; [eassumption|]. rewrite !length_app; simpl; lia.
  - exact Hlen.
Qed.

(** C4.  Every [If_Node] built by [parse_if] has at least one condition
    and one separator fewer than conditions. *)
Theorem parse_if_separator_count n toks p e p' :
  parse_if storage_rv storage_bb n toks p = Ok e p' ->
  exists conds seps then_,
    e = If_Node conds seps then_ /\
    List.length conds = S (List.length seps).
Proof.
  destruct n as [|n]; intros H; simpl in H; inv_ok.
  match goal with
  | H : parse_if_conditions _ _ _ _ _ _ _ = Ok ?r _ |- _ =>
      destruct r as [cs ss]; exists cs, ss; eexists; split; [reflexivity|];
      eapply parse_if_conditions_counts; [exact H | reflexivity]
  end.
Qed.

End Shapes.

(** ** Cursor and error discipline of every parsing function

    [sound m]: run from a cursor inside the vector, [m] either succeeds
    leaving the cursor between where it started and the end of input, or
    fails with a non-empty message and the token under the cursor at some
    index of the input ([None] for the end of input). *)

Definition err_from (toks : list Token) (e : parse_error) : Prop :=
  err_msg e <> "" /\ exists k, err_token e = nth_error toks k.

Definition sound {A} (m : parser A) : Prop :=
  forall toks p, p <= List.length toks ->
    match m toks p with
    | Ok _ p' => p <= p' <= List.length toks
    | Err e => err_from toks e
    end.

Lemma sound_ret {A} (a : A) : sound (ret a).
Proof. intros toks p Hp; simpl; lia. Qed.

Lemma sound_cur_tok : sound cur_tok.
Proof. intros toks p Hp; simpl; lia. Qed.

Lemma sound_get_next_token : sound get_next_token.
Proof.
  intros toks p Hp; unfold get_next_token.
  destruct (Nat.ltb_spec p (List.length toks)); lia.
Qed.

Lemma sound_error {A} (str : string) : str <> "" -> sound (A := A) (error str).
Proof. intros Hs toks p Hp; simpl; split; [exact Hs | exists p; reflexivity]. Qed.

Lemma sound_bind {A B} (m : parser A) (k : A -> parser B) :
  sound m -> (forall a, sound (k a)) -> sound (bind m k).
Proof.
  intros Hm Hk toks p Hp; unfold bind.
  specialize (Hm toks p Hp).
  destruct (m toks p) as [a p'|e]; [|exact Hm].
  specialize (Hk a toks p' ltac:(lia)).
  destruct (k a toks p'); [lia | exact Hk].
Qed.

Create HintDb sound.
#[export] Hint Resolve sound_ret sound_cur_tok sound_get_next_token : sound.

Ltac sound_tac :=
  repeat match goal with
  | |- sound (bind _ _) => apply sound_bind; [ | intro; cbv beta zeta ]
  | |- sound (error _) => apply sound_error; discriminate
  | |- sound out_of_fuel => apply sound_error; discriminate
  | |- sound (if ?b then _ else _) => destruct b
  | |- sound (match ?x with _ => _ end) => destruct x
  | |- sound _ => solve [eauto with sound]
  end.

Lemma sound_expect k msg : msg <> "" -> sound (expect k msg).
Proof. intros Hm; unfold expect; sound_tac; apply sound_error; exact Hm. Qed.

Lemma sound_expect_lexeme s msg : msg <> "" -> sound (expect_lexeme s msg).
Proof. intros Hm; unfold expect_lexeme; sound_tac; apply sound_error; exact Hm. Qed.

Lemma sound_get_tok_precedence : sound get_tok_precedence.
Proof. unfold get_tok_precedence; sound_tac. Qed.

Lemma sound_parse_number_expression ty : sound (parse_number_expression ty).
Proof. unfold parse_number_expression; sound_tac. Qed.

Lemma sound_parse_string_expression : sound parse_string_expression.
Proof. unfold parse_string_expression; sound_tac. Qed.

Lemma sound_parse_import : sound parse_import.
Proof. unfold parse_import; sound_tac. Qed.

#[export] Hint Resolve sound_get_tok_precedence sound_parse_number_expression
  sound_parse_string_expression sound_parse_import : sound.
#[export] Hint Extern 1 (sound (expect _ _)) => apply sound_expect; discriminate : sound.
#[export] Hint Extern 1 (sound (expect_lexeme _ _)) =>
  apply sound_expect_lexeme; discriminate : sound.

Lemma sound_parse_prototype_args n types names :
  sound (parse_prototype_args n types names).
Proof.
  revert types names; induction n as [|n IH]; intros types names; simpl; sound_tac.
Qed.

#[export] Hint Resolve sound_parse_prototype_args : sound.

Lemma sound_parse_prototype n : sound (parse_prototype n).
Proof. unfold parse_prototype; sound_tac. Qed.

#[export] Hint Resolve sound_parse_prototype : sound.

Section Sound.
Variables storage_rv storage_bb : Z.

Ltac split_conj := repeat match goal with |- _ /\ _ => split end.

Ltac intros_sound :=
  repeat match goal with
  | |- sound _ => fail 1
  | |- forall _, _ => intro
  end.

Lemma sound_parser n :
  (forall ty, sound (parse_primary storage_rv storage_bb n ty)) /\
  sound (parse_identifier_expression storage_rv storage_bb n) /\
  (forall args, sound (parse_call_args storage_rv storage_bb n args)) /\
  sound (parse_paren_expression storage_rv storage_bb n) /\
  sound (parse_typecast_expression storage_rv storage_bb n) /\
  sound (parse_if storage_rv storage_bb n) /\
  (forall conds seps,
     sound (parse_if_conditions storage_rv storage_bb n conds seps)) /\
  sound (parse_condition storage_rv storage_bb n) /\
  (forall e lhs ty, sound (parse_bin_op_rhs storage_rv storage_bb n e lhs ty)) /\
  (forall b ty, sound (parse_expression storage_rv storage_bb n b ty)) /\
  (forall body, sound (parse_fn_body storage_rv storage_bb n body)) /\
  sound (parse_fn_declaration storage_rv storage_bb n) /\
  sound (parse_variable_declaration storage_rv storage_bb n) /\
  sound (parse_return_statement storage_rv storage_bb n) /\
  sound (parse_token storage_rv storage_bb n).
Proof.
  induction n as [|n IH].
  - split_conj; intros_sound; simpl; sound_tac.
  - destruct IH as (H1 & H2 & H3 & H4 & H5 & H6 & H7 & H8 & H9 & H10 & H11 & H12
                    & H13 & H14 & H15).
    split_conj; intros_sound; simpl; sound_tac.
Qed.

Lemma sound_parse_token n : sound (parse_token storage_rv storage_bb n).
Proof. apply sound_parser. Qed.

Lemma sound_parse_tokens_loop n nodes :
  sound (parse_tokens_loop storage_rv storage_bb n nodes).
Proof.
  revert nodes; induction n as [|n IH]; intros nodes; simpl; sound_tac.
  apply sound_parse_token.
Qed.

End Sound.

Section Program.
Variables storage_rv storage_bb : Z.

Lemma parse_tokens_loop_at_end n nodes toks p ns p' :
  parse_tokens_loop storage_rv storage_bb n nodes toks p = Ok ns p' ->
  nth_error toks p' = None.
Proof.
  revert nodes p; induction n as [|n IH]; intros nodes p H; simpl in H;
    [discriminate H|].
  unfold bind, cur_tok in H; destruct (nth_error toks p) eqn:Hp.
  - destruct (parse_token storage_rv storage_bb n toks p); [|discriminate H].
    eapply IH; exact H.
  - unfold ret in H; injection H as <- <-; exact Hp.
Qed.

(** C7.  When [parse_tokens] succeeds, the cursor is at the end of the
    token vector: the whole stream has been consumed. *)
Theorem parse_tokens_consumes_all toks nodes p' :
  parse_tokens storage_rv storage_bb toks = Ok nodes p' ->
  p' = List.length toks.
Proof.
  intros H.
  pose proof (sound_parse_tokens_loop storage_rv storage_bb (parse_fuel toks) []
                toks 0 ltac:(lia)) as Hs.
  unfold parse_tokens in H; rewrite H in Hs.
  apply parse_tokens_loop_at_end in H; apply nth_error_None in H; lia.
Qed.

End Program.

Section Error_Positions.
Variables storage_rv storage_bb : Z.
Local Arguments nth_error : simpl never.
Local Arguments token_precedence : simpl never.
Local Arguments bind {A B} m k toks p /.
Local Arguments ret {A} a _ p /.
Local Arguments cur_tok toks p /.
Local Arguments get_next_token toks p /.
Local Arguments error {A} str toks p /.
Local Arguments expect k msg toks p /.
Local Arguments expect_lexeme s msg toks p /.
Local Arguments get_tok_precedence toks p /.
Local Arguments parse_number_expression ty toks p /.







End Error_Positions.

(** ** Codegen-time state of a parsed [Function_Node] *)

Lemma parse_fn_declaration_state storage_rv storage_bb n toks p f p' :
  parse_fn_declaration storage_rv storage_bb n toks p = Ok f p' ->
  fn_variables f = [] /\ fn_return_value_ptr f = storage_rv /\
  fn_end_bb f = storage_bb.
Proof.
  intros H; destruct n as [|n]; simpl in H; inv_ok; simpl; auto.
Qed.

(** C9.  The codegen-time state of a [Function_Node] is not all empty
    when the parser returns it: the constructor fills [variables] with an
    empty map, but leaves [return_value_ptr] and [end_bb] uninitialised,
    so they hold whatever the storage held before ([storage_rv],
    [storage_bb]), for every parsed function.  On S3's
    [fn add(i32 a, i32 b) -> i32 { return a + b; }], over storage that
    held 4096 and 8192, the returned node has an empty scope map and the
    non-null handles 4096 and 8192. *)
Theorem function_node_codegen_state :
  (forall storage_rv storage_bb n toks p f p',
     parse_fn_declaration storage_rv storage_bb n toks p = Ok f p' ->
     fn_variables f = [] /\ fn_return_value_ptr f = storage_rv /\
     fn_end_bb f = storage_bb) /\
  exists f,
    parse_fn_declaration 4096%Z 8192%Z (parse_fuel example_fn) example_fn 0 = Ok f 18 /\
    fn_variables f = [] /\ fn_return_value_ptr f = 4096%Z /\ fn_end_bb f = 8192%Z /\
    fn_return_value_ptr f <> 0%Z /\ fn_end_bb f <> 0%Z.
Proof.
  split.
  - intros storage_rv storage_bb n toks p f p'; apply parse_fn_declaration_state.
  - eexists; split; [vm_compute; reflexivity|].
    vm_compute; repeat split; discriminate.
Qed.

(** ** Default arguments *)

(** C10.  Called without arguments, [parse_expression] takes
    [needs_semicolon = true] and the context type [type_i32], while
    [parse_primary] and [parse_bin_op_rhs] called without a context type
    take [type_null]: on [3 ;] the defaulted [parse_expression] types the
    literal [i32] and consumes the [;], and the defaulted [parse_primary]
    and [parse_bin_op_rhs] leave it [type_null]. *)
Theorem default_arguments storage_rv storage_bb n expr_prec lhs :
  call_parse_expression storage_rv storage_bb n None None =
    parse_expression storage_rv storage_bb n true type_i32 /\
  call_parse_primary storage_rv storage_bb n None =
    parse_primary storage_rv storage_bb n type_null /\
  call_parse_bin_op_rhs storage_rv storage_bb n expr_prec lhs None =
    parse_bin_op_rhs storage_rv storage_bb n expr_prec lhs type_null /\
  call_parse_expression storage_rv storage_bb 5 None None example_three 0 =
    Ok (Number_Expression_Node "3" type_i32) 2 /\
  call_parse_primary storage_rv storage_bb 5 None example_three 0 =
    Ok (Number_Expression_Node "3" type_null) 1 /\
  call_parse_bin_op_rhs storage_rv storage_bb 5 0
      (Number_Expression_Node "3" type_null) None example_three 1 =
    Ok (Number_Expression_Node "3" type_null) 1.
Proof.
  repeat split; vm_compute; reflexivity.
Qed.

(** ** Witnesses *)

Lemma parse_bin_op_rhs_two_operators_witness :
  parse_bin_op_rhs 0 0 10 0 (Number_Expression_Node "1" type_i32) type_i32
    example_expr 1 =
  Ok (Binary_Expression_Node "+" (Number_Expression_Node "1" type_i32)
        (Binary_Expression_Node "*" (Number_Expression_Node "2" type_i32)
           (Number_Expression_Node "3" type_i32))) 5.
Proof.
  apply (parse_bin_op_rhs_two_operators 0 0 10 1 type_i32 example_expr 1 3 5
           (Number_Expression_Node "1" type_i32)
           (Number_Expression_Node "2" type_i32)
           (Number_Expression_Node "3" type_i32)
           (mkToken tok_op "+" 1 2) (mkToken tok_op "*" 1 4));
    [ reflexivity | vm_compute; reflexivity
    | intros m Hm; destruct m; [lia | reflexivity]
    | reflexivity | vm_compute; reflexivity
    | intros m Hm; destruct m; [lia | reflexivity]
    | vm_compute; reflexivity | lia ].
Defined.

Lemma parse_variable_declaration_context_type_witness :
  parse_variable_declaration 0 0 5 example_decl 0 =
  Ok (mkVariable_Node "x" type_i64 (Number_Expression_Node "3" type_i64)) 5.
Proof.
  apply (parse_variable_declaration_context_type 0 0 5 example_decl 0
           "i64" "x" "3" 1 1 1 2 1 3 1 4 1 5);
    try reflexivity; try discriminate; lia.
Defined.

Lemma parse_prototype_arg_lengths_witness :
  exists proto p', parse_prototype 20 example_fn 1 = Ok proto p' /\
    List.length (arg_names proto) = List.length (arg_types proto).
Proof.
  eexists; eexists; split; [vm_compute; reflexivity|].
  eapply (parse_prototype_arg_lengths 20 example_fn 1); vm_compute; reflexivity.
Defined.

Lemma parse_if_separator_count_witness :
  exists e p', parse_if 0 0 20 example_if 0 = Ok e p' /\
    exists conds seps then_,
      e = If_Node conds seps then_ /\ List.length conds = S (List.length seps).
Proof.
  eexists; eexists; split; [vm_compute; reflexivity|].
  eapply (parse_if_separator_count 0 0 20 example_if 0); vm_compute; reflexivity.
Defined.

Lemma parse_tokens_consumes_all_witness :
  exists nodes, parse_tokens 4096%Z 8192%Z example_fn = Ok nodes 18 /\
    18 = List.length example_fn.
Proof.
  eexists; split; [vm_compute; reflexivity|].
  eapply (parse_tokens_consumes_all 4096%Z 8192%Z example_fn); vm_compute; reflexivity.
Defined.

